(** * Translation request lifecycle of the Multilingual Translator front end

    A shallow embedding of [src/frontend/src/App.jsx]: the six pieces of
    component state of [App], the handler [handleTranslationSubmit] (split at
    its single [await]), the part of the render function that decides what
    is displayed, and the event loop that drives them.

    Modelling conventions.
    - A JavaScript string is the list of its UTF-16 code units.
    - A value read from a response body or held in a state variable is a
      [value]: the handler stores whatever the provider sent, so a state
      variable is not always a string.
    - Property reads can throw a [TypeError]; expressions are evaluated in
      the error monad [completion].
    - Every [useState] setter and the [axios.post] call is an [effect]; a
      segment of the handler between two suspension points is the list of
      effects it performs, in program order.  A segment runs to completion
      and its updates are committed together before the next event is
      handled. *)

From Stdlib Require Import List NArith ZArith Bool String Ascii Lia.
Import ListNotations.

Set Implicit Arguments.

(** ** JavaScript strings *)

Module JsString.

Definition code_unit := N.
Definition t := list code_unit.

(** The code units of an ASCII literal of the source. *)
Definition lit (s : string) : t := map N_of_ascii (list_ascii_of_string s).

Fixpoint eqb (a b : t) : bool :=
  match a, b with
  | [], [] => true
  | x :: a', y :: b' => N.eqb x y && eqb a' b'
  | _, _ => false
  end.

(** WhiteSpace and LineTerminator code points of ECMAScript, the ones
    [String.prototype.trim] removes. *)
Definition is_whitespace (c : code_unit) : bool :=
  ((9 <=? c) && (c <=? 13)          (* TAB, LF, VT, FF, CR *)
   || (c =? 32)                     (* SPACE *)
   || (c =? 160)                    (* NO-BREAK SPACE *)
   || (c =? 5760)                   (* U+1680 *)
   || ((8192 <=? c) && (c <=? 8202)) (* U+2000 .. U+200A *)
   || (c =? 8232) || (c =? 8233)    (* U+2028, U+2029 *)
   || (c =? 8239)                   (* U+202F *)
   || (c =? 8287)                   (* U+205F *)
   || (c =? 12288)                  (* U+3000 *)
   || (c =? 65279))%N.              (* U+FEFF *)

Fixpoint trimStart (s : t) : t :=
  match s with
  | [] => []
  | c :: s' => if is_whitespace c then trimStart s' else s
  end.

Definition trimEnd (s : t) : t := rev (trimStart (rev s)).

(** [String.prototype.trim]. *)
Definition trim (s : t) : t := trimEnd (trimStart s).

End JsString.

Definition jsstring : Type := JsString.t.

(** ** JavaScript values *)

(** The values a JSON body or an error object can hold.  [VNumber] carries an
    integer-valued number; the program only ever tests a number for
    truthiness.  An array is an object whose keys are its indices. *)
#[warnings="-register-all"]
Inductive value : Type :=
| VUndefined
| VNull
| VBool (b : bool)
| VNumber (n : Z)
| VString (s : jsstring)
| VObject (props : list (jsstring * value)).

(** ToBoolean. *)
Definition truthy (v : value) : bool :=
  match v with
  | VUndefined | VNull => false
  | VBool b => b
  | VNumber n => negb (n =? 0)%Z
  | VString s => match s with [] => false | _ :: _ => true end
  | VObject _ => true
  end.

Definition nullish (v : value) : bool :=
  match v with
  | VUndefined | VNull => true
  | _ => false
  end.

(** [a || b] on already evaluated operands (the right operands of the
    program are string literals, so evaluation order does not matter). *)
Definition js_or (a b : value) : value := if truthy a then a else b.

(** The property names the program reads.  None of them is defined on the
    prototypes of strings, numbers or booleans, so reading one from a
    primitive gives [undefined]. *)
Inductive field : Type := f_data | f_translated_text | f_response | f_message.

Definition field_name (f : field) : jsstring :=
  match f with
  | f_data => JsString.lit "data"
  | f_translated_text => JsString.lit "translated_text"
  | f_response => JsString.lit "response"
  | f_message => JsString.lit "message"
  end.

Fixpoint lookup (k : jsstring) (props : list (jsstring * value)) : option value :=
  match props with
  | [] => None
  | (k', v) :: rest => if JsString.eqb k k' then Some v else lookup k rest
  end.

(** ** Evaluation with exceptions *)

Inductive completion (A : Type) : Type :=
| Normal (a : A)
| Throw (exn : value).

Arguments Normal {A} a.
Arguments Throw {A} exn.

Definition bind {A B} (c : completion A) (k : A -> completion B) : completion B :=
  match c with
  | Normal a => k a
  | Throw e => Throw e
  end.

Notation "x <- c ;; k" := (bind c (fun x => k))
  (at level 61, c at next level, right associativity).

(** The object thrown when a property of [null] or [undefined] is read. *)
Definition TypeError : value :=
  VObject [(JsString.lit "name", VString (JsString.lit "TypeError"))].

(** [v.f] *)
Definition get (v : value) (f : field) : completion value :=
  match v with
  | VUndefined | VNull => Throw TypeError
  | VObject props =>
      match lookup (field_name f) props with
      | Some x => Normal x
      | None => Normal VUndefined
      end
  | _ => Normal VUndefined
  end.

(** [v?.f], with the rest of the chain [k] skipped when [v] is nullish. *)
Definition get_opt (v : value) (f : field)
           (k : value -> completion value) : completion value :=
  if nullish v then Normal VUndefined else x <- get v f ;; k x.

(** ** Component state and effects *)

(** The six [useState] variables of [App] (lines 173-178). *)
Record AppState : Type := mkApp {
  inputText : jsstring;
  originalLanguage : jsstring;
  destinationLanguage : jsstring;
  translationResult : value;
  errorMessage : value;
  isTranslating : bool
}.

(** The body of the POST sent to [/translate] (lines 202-206). *)
Record Request : Type := mkRequest {
  text : jsstring;
  source_language : jsstring;
  target_language : jsstring
}.

Inductive effect : Type :=
| SetInputText (s : jsstring)
| SetOriginalLanguage (s : jsstring)
| SetDestinationLanguage (s : jsstring)
| SetTranslationResult (v : value)
| SetErrorMessage (v : value)
| SetIsTranslating (b : bool)
| Post (r : Request).

(** How the promise returned by [axios.post] settles. *)
Inductive outcome : Type :=
| Fulfilled (response : value)
| Rejected (err : value).

(** ** The handler *)

Definition msg_enter_text : jsstring := JsString.lit "Please enter some text.".
Definition msg_no_translation : jsstring := JsString.lit "No translation available.".
Definition msg_failed : jsstring :=
  JsString.lit "Failed to translate text. Please try again.".

(** [handleTranslationSubmit], lines 190-206: the segment that runs
    synchronously when the handler is called, up to the early [return] or
    to the [await] on the promise of [axios.post].  The handler suspends
    exactly when the segment ends with a [Post]. *)
Definition handleTranslationSubmit (s : AppState) : list effect :=
  if negb (truthy (VString (JsString.trim (inputText s)))) then
    [SetErrorMessage (VString msg_enter_text)]
  else
    [SetErrorMessage (VString []);
     SetTranslationResult (VString []);
     SetIsTranslating true;
     Post {| text := inputText s;
             source_language := originalLanguage s;
             target_language := destinationLanguage s |}].

(** Line 207, the rest of the [try] block once the promise has settled. *)
Definition try_block (o : outcome) : completion (list effect) :=
  match o with
  | Fulfilled response =>
      data <- get response f_data ;;
      t <- get data f_translated_text ;;
      Normal [SetTranslationResult (js_or t (VString msg_no_translation))]
  | Rejected err => Throw err
  end.

(** Line 210, the [catch] block. *)
Definition catch_block (err : value) : completion (list effect) :=
  response <- get err f_response ;;
  m <- get_opt response f_data (fun data =>
         get_opt data f_message (fun m => Normal m)) ;;
  Normal [SetErrorMessage (js_or m (VString msg_failed))].

(** Line 213, the [finally] block. *)
Definition finally_block : list effect := [SetIsTranslating false].

(** [handleTranslationSubmit], lines 207-214: the segment that runs when the
    awaited promise settles.  The second component is the exception the
    handler's own promise is rejected with, if the [catch] block throws. *)
Definition handleTranslationSubmit_resume (o : outcome)
  : list effect * option value :=
  match try_block o with
  | Normal effs => (effs ++ finally_block, None)
  | Throw err =>
      match catch_block err with
      | Normal effs => (effs ++ finally_block, None)
      | Throw exn => (finally_block, Some exn)
      end
  end.

(** ** The provider as seen through axios *)

(** What comes back from the provider: an HTTP reply with its status and
    its (parsed) body, or nothing at all (connection refused, DNS failure,
    timeout). *)
Inductive reply : Type :=
| HttpReply (status : Z) (data : value)
| NoReply.

Definition response_object (status : Z) (data : value) : value :=
  VObject [(JsString.lit "data", data); (JsString.lit "status", VNumber status)].

(** The default [validateStatus] of axios. *)
Definition validateStatus (status : Z) : bool :=
  ((200 <=? status) && (status <? 300))%Z.

(** axios with its default [validateStatus]: a 2xx reply fulfils the
    promise with the response; any other reply rejects it with an error
    that carries the response; no reply rejects it with an error that has
    no [response] property. *)
Definition axios_post (r : reply) : outcome :=
  match r with
  | HttpReply status data =>
      if validateStatus status then
        Fulfilled (response_object status data)
      else
        Rejected (VObject [(JsString.lit "name", VString (JsString.lit "AxiosError"));
                           (JsString.lit "response", response_object status data)])
  | NoReply =>
      Rejected (VObject [(JsString.lit "name", VString (JsString.lit "AxiosError"))])
  end.

(** ** The render function *)

(** What lines 217-262 put on the screen, as far as it depends on state. *)
Record View : Type := mkView {
  textarea_value : jsstring;
  original_value : jsstring;
  destination_value : jsstring;
  button_disabled : bool;
  button_label : jsstring;
  error_box : option value;     (* the message of <ErrorMessage>, if rendered *)
  result_box : option value     (* the text of <TranslatedOutput>, if rendered *)
}.

Definition render (s : AppState) : View :=
  {| textarea_value := inputText s;
     original_value := originalLanguage s;
     destination_value := destinationLanguage s;
     button_disabled := isTranslating s;
     button_label := if isTranslating s then JsString.lit "Translating..."
                     else JsString.lit "Translate";
     error_box := if truthy (errorMessage s) then Some (errorMessage s) else None;
     result_box := if truthy (translationResult s)
                   then Some (translationResult s) else None |}.

(** ** The event loop *)

(** The component together with the network: every request sent so far,
    oldest first, and the indices of those whose promise has not settled. *)
Record World : Type := mkWorld {
  app : AppState;
  sent : list Request;
  outstanding : list nat
}.

Definition set_app (w : World) (s : AppState) : World :=
  {| app := s; sent := sent w; outstanding := outstanding w |}.

Definition apply_effect (w : World) (e : effect) : World :=
  let s := app w in
  match e with
  | SetInputText x =>
      set_app w (mkApp x (originalLanguage s) (destinationLanguage s)
                       (translationResult s) (errorMessage s) (isTranslating s))
  | SetOriginalLanguage x =>
      set_app w (mkApp (inputText s) x (destinationLanguage s)
                       (translationResult s) (errorMessage s) (isTranslating s))
  | SetDestinationLanguage x =>
      set_app w (mkApp (inputText s) (originalLanguage s) x
                       (translationResult s) (errorMessage s) (isTranslating s))
  | SetTranslationResult v =>
      set_app w (mkApp (inputText s) (originalLanguage s) (destinationLanguage s)
                       v (errorMessage s) (isTranslating s))
  | SetErrorMessage v =>
      set_app w (mkApp (inputText s) (originalLanguage s) (destinationLanguage s)
                       (translationResult s) v (isTranslating s))
  | SetIsTranslating b =>
      set_app w (mkApp (inputText s) (originalLanguage s) (destinationLanguage s)
                       (translationResult s) (errorMessage s) b)
  | Post r =>
      {| app := s;
         sent := sent w ++ [r];
         outstanding := outstanding w ++ [List.length (sent w)] |}
  end.

Definition run (effs : list effect) (w : World) : World :=
  fold_left apply_effect effs w.

(** A call of the handler: its first segment runs on the current state. *)
Definition submit (w : World) : World :=
  run (handleTranslationSubmit (app w)) w.

Definition is_outstanding (id : nat) (w : World) : bool :=
  existsb (Nat.eqb id) (outstanding w).

(** The promise of request [id] settles and the suspended handler resumes.
    A promise settles once: settling a request that is not outstanding does
    nothing. *)
Definition settle (id : nat) (o : outcome) (w : World) : World :=
  if is_outstanding id w then
    run (fst (handleTranslationSubmit_resume o))
        {| app := app w;
           sent := sent w;
           outstanding := filter (fun j => negb (Nat.eqb id j)) (outstanding w) |}
  else w.

(** What can happen to the page: an edit of one of the three inputs
    ([onChange], lines 224, 234, 241), a click on the button (line 248; a
    disabled button dispatches no click), or the settlement of a request. *)
Inductive event : Type :=
| EditText (s : jsstring)
| EditOriginal (s : jsstring)
| EditDestination (s : jsstring)
| Click
| Settle (id : nat) (o : outcome).

Definition step (w : World) (e : event) : World :=
  match e with
  | EditText s => run [SetInputText s] w
  | EditOriginal s => run [SetOriginalLanguage s] w
  | EditDestination s => run [SetDestinationLanguage s] w
  | Click => if button_disabled (render (app w)) then w else submit w
  | Settle id o => settle id o w
  end.

Definition steps (w : World) (evs : list event) : World := fold_left step evs w.

(** Lines 173-178. *)
Definition initial : AppState :=
  {| inputText := [];
     originalLanguage := JsString.lit "en";
     destinationLanguage := JsString.lit "es";
     translationResult := VString [];
     errorMessage := VString [];
     isTranslating := false |}.

Definition start : World := {| app := initial; sent := []; outstanding := [] |}.

(** The states the page can be in. *)
Inductive reachable : World -> Prop :=
| reachable_start : reachable start
| reachable_step w e : reachable w -> reachable (step w e).

(** The request has been sent, nothing else is outstanding, and the display
    has been cleared. *)
Definition in_flight (id : nat) (w : World) : Prop :=
  isTranslating (app w) = true /\
  outstanding w = [id] /\
  errorMessage (app w) = VString [] /\
  translationResult (app w) = VString [].

(** One submission through the page: a click, then any other events, then
    the settlement of the request the click sent. *)
Definition session (w : World) (evs : list event) (o : outcome) : World :=
  step (steps (step w Click) evs) (Settle (List.length (sent w)) o).

(** A reply that makes axios reject the promise. *)
Definition is_failure (r : reply) : bool :=
  match r with
  | HttpReply status _ => negb (validateStatus status)
  | NoReply => true
  end.

(** The [message] field of the body of a reply, [undefined] when there is
    no reply, no body, a body that is not an object, or no such field. *)
Definition provider_message (r : reply) : value :=
  match r with
  | HttpReply _ (VObject props) =>
      match lookup (field_name f_message) props with
      | Some m => m
      | None => VUndefined
      end
  | _ => VUndefined
  end.

(** The shapes the second segment can take: it sets the result or the error
    to a truthy value, or neither, and always ends with the [finally]
    block. *)
Inductive resume_shape : list effect -> Prop :=
| shape_result v :
    truthy v = true -> resume_shape [SetTranslationResult v; SetIsTranslating false]
| shape_error v :
    truthy v = true -> resume_shape [SetErrorMessage v; SetIsTranslating false]
| shape_thrown : resume_shape [SetIsTranslating false].

(** What holds in every state of the page (see [reachable_invariant]). *)
Record invariant (w : World) : Prop := {
  inv_busy : isTranslating (app w) = true -> exists id, in_flight id w;
  inv_idle : isTranslating (app w) = false -> outstanding w = [];
  inv_both : truthy (errorMessage (app w)) = true ->
             truthy (translationResult (app w)) = true ->
             errorMessage (app w) = VString msg_enter_text
}.

(** ** Sample inputs *)

Definition body_translated (x : string) : list (jsstring * value) :=
  [(JsString.lit "translated_text", VString (JsString.lit x))].

Definition body_message (m : string) : list (jsstring * value) :=
  [(JsString.lit "message", VString (JsString.lit m))].

(** The page after the user has typed a text. *)
Definition typed (x : string) : World := step start (EditText (JsString.lit x)).

(** The page after "Hello" has been typed and the button clicked. *)
Definition hello_in_flight : World := step (typed "Hello") Click.

(** The page after "Hello" was translated to "Hola", the text was erased
    and the button clicked again. *)
Definition hola_then_blank : World :=
  steps start
        [EditText (JsString.lit "Hello");
         Click;
         Settle 0 (axios_post (HttpReply 200 (VObject (body_translated "Hola"))));
         EditText [];
         Click].


(** ** Prop types and traces *)

(** [PropTypes.string.isRequired] (lines 266-285): the prop is a string;
    [null], [undefined] and every other kind of value fail the check. *)
Definition string_isRequired (v : value) : bool :=
  match v with
  | VString _ => true
  | _ => false
  end.

(** The checks on the props that hold state-dependent values of type
    [value]: [message] of <ErrorMessage> (lines 259, 279-281) and [text] of
    <TranslatedOutput> (lines 260, 283-285).  The [value] props of the
    three inputs are strings by construction. *)
Definition propTypes_ok (v : View) : bool :=
  match error_box v with Some m => string_isRequired m | None => true end
  && match result_box v with Some t => string_isRequired t | None => true end.

Definition string_or_absent (o : option value) : bool :=
  match o with
  | Some (VString _) | Some VUndefined | None => true
  | Some _ => false
  end.

(** A reply whose body, when it is an object, has strings (or nothing) in
    its [translated_text] and [message] fields. *)
Definition string_reply (r : reply) : bool :=
  match r with
  | HttpReply _ (VObject props) =>
      string_or_absent (lookup (field_name f_translated_text) props)
      && string_or_absent (lookup (field_name f_message) props)
  | _ => true
  end.

(** An event of a run in which every settlement comes from axios and
    carries such a reply. *)
Definition string_event (e : event) : Prop :=
  match e with
  | Settle _ o => exists r, o = axios_post r /\ string_reply r = true
  | _ => True
  end.

Definition is_edit (e : event) : bool :=
  match e with
  | EditText _ | EditOriginal _ | EditDestination _ => true
  | _ => false
  end.

Definition is_click (e : event) : bool :=
  match e with
  | Click => true
  | _ => false
  end.

(** * Properties *)

(** ** Trimming *)

Section Trim.

Import JsString.

Lemma trimStart_nil_iff (s : JsString.t) :
  trimStart s = [] <-> forallb is_whitespace s = true.
Proof.
  induction s as [|c s IH]; simpl.
  - tauto.
  - destruct (is_whitespace c); simpl.
    + exact IH.
    + split; discriminate.
Qed.

Lemma trimStart_all_whitespace (s : JsString.t) :
  forallb is_whitespace (trimStart s) = true -> trimStart s = [].
Proof.
  induction s as [|c s IH]; simpl; [reflexivity|].
  destruct (is_whitespace c) eqn:E; [exact IH|].
  simpl. rewrite E. discriminate.
Qed.

Lemma forallb_rev (A : Type) (p : A -> bool) (l : list A) :
  forallb p (rev l) = forallb p l.
Proof.
  induction l as [|a l IH]; simpl; [reflexivity|].
  rewrite forallb_app, IH. simpl. rewrite andb_true_r. apply andb_comm.
Qed.

Lemma trimEnd_nil_iff (s : JsString.t) :
  trimEnd s = [] <-> forallb is_whitespace s = true.
Proof.
  unfold trimEnd. rewrite <- (forallb_rev is_whitespace s).
  rewrite <- trimStart_nil_iff. split; intros H.
  - apply (f_equal (@rev _)) in H. rewrite rev_involutive in H. exact H.
  - rewrite H. reflexivity.
Qed.

(** Trimming leaves nothing exactly when the string is empty or made of
    white space only. *)
Lemma trim_nil_iff (s : JsString.t) :
  trim s = [] <-> forallb is_whitespace s = true.
Proof.
  unfold trim. rewrite trimEnd_nil_iff. split; intros H.
  - apply trimStart_nil_iff, trimStart_all_whitespace, H.
  - apply trimStart_nil_iff in H. rewrite H. reflexivity.
Qed.

End Trim.

(** ** The two segments of the handler *)

Lemma handler_blank (s : AppState) :
  JsString.trim (inputText s) = [] ->
  handleTranslationSubmit s = [SetErrorMessage (VString msg_enter_text)].
Proof.
  intros H. unfold handleTranslationSubmit. rewrite H. reflexivity.
Qed.

Lemma handler_valid (s : AppState) :
  JsString.trim (inputText s) <> [] ->
  handleTranslationSubmit s =
    [SetErrorMessage (VString []);
     SetTranslationResult (VString []);
     SetIsTranslating true;
     Post (mkRequest (inputText s) (originalLanguage s) (destinationLanguage s))].
Proof.
  intros H. unfold handleTranslationSubmit.
  destruct (JsString.trim (inputText s)); [contradiction|reflexivity].
Qed.

Lemma js_or_truthy (a b : value) : truthy b = true -> truthy (js_or a b) = true.
Proof.
  intros H. unfold js_or. destruct (truthy a) eqn:E; assumption.
Qed.

Lemma catch_block_shape (err : value) (effs : list effect) :
  catch_block err = Normal effs ->
  exists v, truthy v = true /\ effs = [SetErrorMessage v].
Proof.
  unfold catch_block, bind. destruct (get err f_response); [|discriminate].
  destruct (get_opt _ _ _) as [m|]; [|discriminate].
  intros H. injection H as <-. eexists. split; [|reflexivity].
  apply js_or_truthy. reflexivity.
Qed.

Lemma resume_has_shape (o : outcome) :
  resume_shape (fst (handleTranslationSubmit_resume o)).
Proof.
  unfold handleTranslationSubmit_resume.
  assert (Hc : forall err,
             resume_shape
               (fst match catch_block err with
                    | Normal effs => (effs ++ finally_block, None)
                    | Throw exn => (finally_block, Some exn)
                    end)).
  { intros err. destruct (catch_block err) as [effs|exn] eqn:E; simpl.
    - apply catch_block_shape in E. destruct E as (v & Hv & ->).
      apply shape_error, Hv.
    - apply shape_thrown. }
  destruct o as [response|err]; simpl; [|apply Hc].
  unfold bind. destruct (get response f_data) as [data|]; [|apply Hc].
  destruct (get data f_translated_text) as [t|]; [|apply Hc].
  simpl. apply shape_result, js_or_truthy. reflexivity.
Qed.

(** ** Running the segments on the world *)

Lemma submit_blank (w : World) :
  JsString.trim (inputText (app w)) = [] ->
  submit w =
    set_app w (mkApp (inputText (app w)) (originalLanguage (app w))
                     (destinationLanguage (app w)) (translationResult (app w))
                     (VString msg_enter_text) (isTranslating (app w))).
Proof.
  intros H. unfold submit. rewrite (handler_blank _ H). reflexivity.
Qed.

Lemma submit_valid (w : World) :
  JsString.trim (inputText (app w)) <> [] ->
  submit w =
    {| app := mkApp (inputText (app w)) (originalLanguage (app w))
                    (destinationLanguage (app w)) (VString []) (VString []) true;
       sent := sent w ++ [mkRequest (inputText (app w)) (originalLanguage (app w))
                                    (destinationLanguage (app w))];
       outstanding := outstanding w ++ [List.length (sent w)] |}.
Proof.
  intros H. unfold submit. rewrite (handler_valid _ H). reflexivity.
Qed.

Lemma is_outstanding_single (id : nat) (w : World) :
  outstanding w = [id] -> is_outstanding id w = true.
Proof.
  intros H. unfold is_outstanding. rewrite H. simpl.
  rewrite Nat.eqb_refl. reflexivity.
Qed.

Lemma is_outstanding_none (id : nat) (w : World) :
  outstanding w = [] -> is_outstanding id w = false.
Proof.
  intros H. unfold is_outstanding. rewrite H. reflexivity.
Qed.

(** Settling the only outstanding request runs the second segment on the
    current state and leaves nothing outstanding. *)
Lemma settle_single (id : nat) (o : outcome) (w : World) :
  outstanding w = [id] ->
  settle id o w =
    run (fst (handleTranslationSubmit_resume o))
        {| app := app w; sent := sent w; outstanding := [] |}.
Proof.
  intros H. unfold settle. rewrite (is_outstanding_single _ H), H.
  simpl. rewrite Nat.eqb_refl. reflexivity.
Qed.

Lemma settle_other (id j : nat) (o : outcome) (w : World) :
  outstanding w = [j] -> id <> j -> settle id o w = w.
Proof.
  intros H Hne. unfold settle, is_outstanding. rewrite H. simpl.
  apply Nat.eqb_neq in Hne. rewrite Hne. reflexivity.
Qed.

(** Whatever the outcome, the second segment leaves the flag off. *)
Lemma run_resume_flag (o : outcome) (w : World) :
  isTranslating (app (run (fst (handleTranslationSubmit_resume o)) w)) = false.
Proof.
  destruct (resume_has_shape o); reflexivity.
Qed.

Lemma run_resume_network (o : outcome) (w : World) :
  sent (run (fst (handleTranslationSubmit_resume o)) w) = sent w /\
  outstanding (run (fst (handleTranslationSubmit_resume o)) w) = outstanding w.
Proof.
  destruct (resume_has_shape o); split; reflexivity.
Qed.

(** ** While a request is in flight *)

Lemma in_flight_step (id : nat) (w : World) (e : event) :
  in_flight id w -> (forall o, e <> Settle id o) -> in_flight id (step w e).
Proof.
  intros (Hf & Ho & He & Hr) Hne.
  destruct e as [s|s|s| |j o]; simpl;
    try (unfold in_flight; simpl; tauto).
  - rewrite Hf. unfold in_flight. tauto.
  - rewrite (@settle_other j id o w Ho).
    + unfold in_flight. tauto.
    + intros ->. apply (Hne o). reflexivity.
Qed.

Lemma in_flight_steps (id : nat) (evs : list event) (w : World) :
  in_flight id w -> (forall o, ~ In (Settle id o) evs) ->
  in_flight id (steps w evs).
Proof.
  revert w. induction evs as [|e evs IH]; intros w Hw Hno; simpl.
  - exact Hw.
  - apply IH.
    + apply in_flight_step; [exact Hw|].
      intros o ->. apply (Hno o). left. reflexivity.
    + intros o Hin. apply (Hno o). right. exact Hin.
Qed.

(** ** The invariant of the page *)

Lemma invariant_start : invariant start.
Proof.
  split; simpl; intros; try discriminate; reflexivity.
Qed.

Lemma invariant_edit (w : World) (s : AppState) :
  invariant w ->
  translationResult s = translationResult (app w) ->
  errorMessage s = errorMessage (app w) ->
  isTranslating s = isTranslating (app w) ->
  invariant (set_app w s).
Proof.
  intros [Hb Hi Hboth] Hr He Hf.
  split; simpl; rewrite ?Hr, ?He, ?Hf.
  - intros H. destruct (Hb H) as (id & H1 & H2 & H3 & H4).
    exists id. unfold in_flight. simpl. rewrite Hr, He, Hf. tauto.
  - exact Hi.
  - exact Hboth.
Qed.

Lemma invariant_step (w : World) (e : event) :
  invariant w -> invariant (step w e).
Proof.
  intros Hinv. destruct e as [s|s|s| |id o]; simpl.
  - apply invariant_edit; auto.
  - apply invariant_edit; auto.
  - apply invariant_edit; auto.
  - destruct (isTranslating (app w)) eqn:Hf; [exact Hinv|].
    destruct (JsString.trim (inputText (app w))) as [|c t] eqn:Ht.
    + rewrite (submit_blank _ Ht).
      split; simpl; rewrite ?Hf; try discriminate.
      * intros _. apply (inv_idle Hinv Hf).
      * reflexivity.
    + assert (Hne : JsString.trim (inputText (app w)) <> [])
        by (rewrite Ht; discriminate).
      rewrite (submit_valid _ Hne). rewrite (inv_idle Hinv Hf).
      split; simpl; try discriminate.
      intros _. exists (List.length (sent w)). unfold in_flight. simpl. tauto.
  - destruct (isTranslating (app w)) eqn:Hf.
    + destruct (inv_busy Hinv Hf) as (j & _ & Ho & He & Hr).
      destruct (Nat.eq_dec id j) as [->|Hne].
      * rewrite (@settle_single j o w Ho).
        destruct (resume_has_shape o) as [v Hv|v Hv|];
          split; simpl; rewrite ?He, ?Hr; try discriminate; reflexivity.
      * rewrite (@settle_other id j o w Ho Hne). exact Hinv.
    + unfold settle. rewrite (@is_outstanding_none id w (inv_idle Hinv Hf)).
      exact Hinv.
Qed.

Lemma reachable_invariant (w : World) : reachable w -> invariant w.
Proof.
  induction 1 as [|w e _ IH].
  - apply invariant_start.
  - apply invariant_step, IH.
Qed.

Lemma reachable_steps (w : World) (evs : list event) :
  reachable w -> reachable (steps w evs).
Proof.
  revert w. induction evs as [|e evs IH]; intros w Hw; simpl.
  - exact Hw.
  - apply IH, reachable_step, Hw.
Qed.

(** A click on the enabled button with a valid text puts the request in
    flight, and it stays so until its own settlement. *)
Lemma click_in_flight (w : World) (evs : list event) :
  reachable w ->
  isTranslating (app w) = false ->
  JsString.trim (inputText (app w)) <> [] ->
  (forall o, ~ In (Settle (List.length (sent w)) o) evs) ->
  in_flight (List.length (sent w)) (steps (step w Click) evs).
Proof.
  intros Hr Hf Hne Hno. apply in_flight_steps; [|exact Hno].
  simpl. rewrite Hf, (submit_valid _ Hne).
  rewrite (inv_idle (reachable_invariant Hr) Hf).
  unfold in_flight. simpl. tauto.
Qed.

(** The state a session ends in is the second segment run on the cleared
    display. *)
Lemma session_app (w : World) (evs : list event) (o : outcome) :
  reachable w ->
  isTranslating (app w) = false ->
  JsString.trim (inputText (app w)) <> [] ->
  (forall o', ~ In (Settle (List.length (sent w)) o') evs) ->
  exists w1,
    in_flight (List.length (sent w)) w1 /\
    session w evs o =
      run (fst (handleTranslationSubmit_resume o))
          {| app := app w1; sent := sent w1; outstanding := [] |}.
Proof.
  intros Hr Hf Hne Hno.
  pose proof (click_in_flight evs Hr Hf Hne Hno) as Hin.
  exists (steps (step w Click) evs). split; [exact Hin|].
  unfold session. simpl. apply settle_single. apply Hin.
Qed.

(** ** Outcomes of the second segment *)

Lemma get_response_data (status : Z) (data : value) :
  get (response_object status data) f_data = Normal data.
Proof. reflexivity. Qed.

Lemma get_props (props : list (jsstring * value)) (f : field) :
  get (VObject props) f =
    Normal (match lookup (field_name f) props with
            | Some x => x
            | None => VUndefined
            end).
Proof. simpl. destruct (lookup _ props); reflexivity. Qed.

(** A 2xx reply whose body is not [null]: line 207 stores the translated
    text or, when it is falsy, the sentinel. *)
Lemma resume_fulfilled (status : Z) (data t : value) :
  validateStatus status = true ->
  get data f_translated_text = Normal t ->
  handleTranslationSubmit_resume (axios_post (HttpReply status data)) =
    ([SetTranslationResult (js_or t (VString msg_no_translation));
      SetIsTranslating false], None).
Proof.
  intros Hs Ht. unfold handleTranslationSubmit_resume, axios_post.
  rewrite Hs. unfold try_block, bind. rewrite get_response_data, Ht.
  reflexivity.
Qed.

(** A failure: line 210 stores the message of the body or, when there is
    none or it is falsy, the generic text. *)
Lemma resume_rejected (r : reply) :
  is_failure r = true ->
  handleTranslationSubmit_resume (axios_post r) =
    ([SetErrorMessage (js_or (provider_message r) (VString msg_failed));
      SetIsTranslating false], None).
Proof.
  destruct r as [status data|]; simpl; [|intros _; reflexivity].
  intros Hs. apply negb_true_iff in Hs.
  unfold handleTranslationSubmit_resume, axios_post. rewrite Hs.
  unfold try_block, catch_block.
  destruct data as [| |b|n|s|props]; try reflexivity.
  cbn. destruct (lookup _ props); reflexivity.
Qed.

(** ** Validation *)

(** C1. When the text is empty after trimming, the handler only sets the
    error message to "Please enter some text." and returns: the error is
    displayed and no request is sent, whatever the language codes are. *)
Theorem blank_input_rejected (w : World) :
  JsString.trim (inputText (app w)) = [] ->
  handleTranslationSubmit (app w) = [SetErrorMessage (VString msg_enter_text)] /\
  errorMessage (app (submit w)) = VString msg_enter_text /\
  error_box (render (app (submit w))) = Some (VString msg_enter_text) /\
  sent (submit w) = sent w /\
  outstanding (submit w) = outstanding w.
Proof.
  intros H. split; [apply handler_blank, H|].
  rewrite (submit_blank _ H). simpl. repeat split; reflexivity.
Qed.

Lemma blank_input_rejected_witness :
  JsString.trim (inputText (app (typed "  "))) = [] /\
  errorMessage (app (submit (typed "  "))) = VString msg_enter_text /\
  sent (submit (typed "  ")) = [].
Proof.
  split; [reflexivity|].
  destruct (@blank_input_rejected (typed "  ") eq_refl) as (_ & He & _ & Hs & _).
  split; [exact He|exact Hs].
Defined.

(** C10. A call rejected by validation changes the error message and
    nothing else: the displayed result, the in-progress flag, the text and
    the two language codes, and the network are as they were. *)
Theorem validation_failure_frame (w : World) :
  JsString.trim (inputText (app w)) = [] ->
  translationResult (app (submit w)) = translationResult (app w) /\
  isTranslating (app (submit w)) = isTranslating (app w) /\
  inputText (app (submit w)) = inputText (app w) /\
  originalLanguage (app (submit w)) = originalLanguage (app w) /\
  destinationLanguage (app (submit w)) = destinationLanguage (app w) /\
  sent (submit w) = sent w /\
  outstanding (submit w) = outstanding w.
Proof.
  intros H. rewrite (submit_blank _ H). simpl. repeat split; reflexivity.
Qed.

Lemma validation_failure_frame_witness :
  JsString.trim (inputText (app hola_then_blank)) = [] /\
  translationResult (app (submit hola_then_blank)) =
    VString (JsString.lit "Hola").
Proof.
  split; [reflexivity|].
  destruct (@validation_failure_frame hola_then_blank eq_refl) as (Hr & _).
  rewrite Hr. reflexivity.
Defined.

(** ** The request *)

(** C4, as stated, fails: for the text " Hello " the request carries
    " Hello ", not "Hello". *)
Lemma request_text_not_trimmed :
  JsString.trim (inputText (app (typed " Hello "))) = JsString.lit "Hello" /\
  map text (sent (step (typed " Hello ") Click)) = [JsString.lit " Hello "] /\
  map text (sent (step (typed " Hello ") Click)) <>
    [JsString.trim (inputText (app (typed " Hello ")))].
Proof.
  repeat split; try reflexivity. vm_compute. discriminate.
Qed.

(** C4, amended. A valid call sends exactly one request; its text is the
    input text as typed (trimming only serves the emptiness test) and its
    language codes are the two codes of the state, unmodified. *)
Theorem request_carries_raw_input (w : World) :
  JsString.trim (inputText (app w)) <> [] ->
  sent (submit w) =
    sent w ++ [{| text := inputText (app w);
                  source_language := originalLanguage (app w);
                  target_language := destinationLanguage (app w) |}].
Proof.
  intros H. rewrite (submit_valid _ H). reflexivity.
Qed.

Lemma request_carries_raw_input_witness :
  JsString.trim (inputText (app (typed " Hello "))) <> [] /\
  sent (submit (typed " Hello ")) =
    [{| text := JsString.lit " Hello ";
        source_language := JsString.lit "en";
        target_language := JsString.lit "es" |}].
Proof.
  assert (H : JsString.trim (inputText (app (typed " Hello "))) <> [])
    by (vm_compute; discriminate).
  split; [exact H|].
  rewrite (@request_carries_raw_input (typed " Hello ") H). reflexivity.
Defined.

(** ** Settlement *)

Lemma session_fulfilled (w : World) (evs : list event)
      (status : Z) (data t : value) :
  reachable w ->
  isTranslating (app w) = false ->
  JsString.trim (inputText (app w)) <> [] ->
  (forall o, ~ In (Settle (List.length (sent w)) o) evs) ->
  validateStatus status = true ->
  get data f_translated_text = Normal t ->
  let w' := session w evs (axios_post (HttpReply status data)) in
  translationResult (app w') = js_or t (VString msg_no_translation) /\
  errorMessage (app w') = VString [] /\
  isTranslating (app w') = false /\
  outstanding w' = [].
Proof.
  intros Hr Hf Hne Hno Hs Ht.
  destruct (@session_app w evs (axios_post (HttpReply status data)) Hr Hf Hne Hno)
    as (w1 & (_ & _ & He & _) & ->).
  rewrite (@resume_fulfilled status data t Hs Ht). simpl. rewrite He.
  repeat split; reflexivity.
Qed.

Lemma session_rejected (w : World) (evs : list event) (r : reply) :
  reachable w ->
  isTranslating (app w) = false ->
  JsString.trim (inputText (app w)) <> [] ->
  (forall o, ~ In (Settle (List.length (sent w)) o) evs) ->
  is_failure r = true ->
  let w' := session w evs (axios_post r) in
  errorMessage (app w') = js_or (provider_message r) (VString msg_failed) /\
  translationResult (app w') = VString [] /\
  isTranslating (app w') = false /\
  outstanding w' = [].
Proof.
  intros Hr Hf Hne Hno Hfail.
  destruct (@session_app w evs (axios_post r) Hr Hf Hne Hno)
    as (w1 & (_ & _ & _ & Hres) & ->).
  rewrite (@resume_rejected r Hfail). simpl. rewrite Hres.
  repeat split; reflexivity.
Qed.

Lemma reachable_typed (x : string) : reachable (typed x).
Proof. apply reachable_step, reachable_start. Qed.

(** C2. A valid submission answered with status 200 and a body whose
    [translated_text] is a non-empty string X ends with X as the displayed
    result, no error, and the in-progress flag off, whatever edits and
    clicks happen while the request is in flight. *)
Theorem success_settles_to_payload
        (w : World) (evs : list event)
        (props : list (jsstring * value)) (X : jsstring) :
  reachable w ->
  isTranslating (app w) = false ->
  JsString.trim (inputText (app w)) <> [] ->
  (forall o, ~ In (Settle (List.length (sent w)) o) evs) ->
  lookup (field_name f_translated_text) props = Some (VString X) ->
  X <> [] ->
  let w' := session w evs (axios_post (HttpReply 200 (VObject props))) in
  translationResult (app w') = VString X /\
  errorMessage (app w') = VString [] /\
  isTranslating (app w') = false /\
  outstanding w' = [] /\
  result_box (render (app w')) = Some (VString X) /\
  error_box (render (app w')) = None.
Proof.
  intros Hr Hf Hne Hno Hl HX.
  assert (Hg : get (VObject props) f_translated_text = Normal (VString X))
    by (rewrite get_props, Hl; reflexivity).
  destruct (@session_fulfilled w evs 200 _ _ Hr Hf Hne Hno eq_refl Hg)
    as (H1 & H2 & H3 & H4).
  assert (HT : js_or (VString X) (VString msg_no_translation) = VString X)
    by (destruct X; [contradiction|reflexivity]).
  rewrite HT in H1. cbv zeta. revert H1 H2 H3 H4.
  generalize (session w evs (axios_post (HttpReply 200 (VObject props)))).
  intros w' H1 H2 H3 H4. unfold render. simpl. rewrite H1, H2, H3, H4.
  destruct X; [contradiction|]. repeat split; reflexivity.
Qed.

Lemma success_settles_to_payload_witness :
  translationResult
    (app (session (typed "Hello") [EditText (JsString.lit "Bye"); Click]
                  (axios_post (HttpReply 200 (VObject (body_translated "Hola"))))))
  = VString (JsString.lit "Hola").
Proof.
  refine (proj1 (@success_settles_to_payload
                   (typed "Hello") [EditText (JsString.lit "Bye"); Click]
                   (body_translated "Hola") (JsString.lit "Hola")
                   (reachable_typed "Hello") eq_refl _ _ eq_refl _)).
  - vm_compute. discriminate.
  - intros o [H|[H|[]]]; discriminate.
  - vm_compute. discriminate.
Defined.

(** C6. A valid submission answered with status 200 and a body in which
    [translated_text] is absent or is the empty string ends with the
    sentinel "No translation available." as the displayed result and with
    no error. *)
Theorem missing_translation_settles_to_sentinel
        (w : World) (evs : list event) (props : list (jsstring * value)) :
  reachable w ->
  isTranslating (app w) = false ->
  JsString.trim (inputText (app w)) <> [] ->
  (forall o, ~ In (Settle (List.length (sent w)) o) evs) ->
  lookup (field_name f_translated_text) props = None \/
  lookup (field_name f_translated_text) props = Some (VString []) ->
  let w' := session w evs (axios_post (HttpReply 200 (VObject props))) in
  translationResult (app w') = VString msg_no_translation /\
  errorMessage (app w') = VString [] /\
  isTranslating (app w') = false /\
  outstanding w' = [] /\
  result_box (render (app w')) = Some (VString msg_no_translation) /\
  error_box (render (app w')) = None.
Proof.
  intros Hr Hf Hne Hno Hl.
  assert (Hg : exists t, get (VObject props) f_translated_text = Normal t /\
                         truthy t = false).
  { rewrite get_props. destruct Hl as [-> | ->]; eexists; split; reflexivity. }
  destruct Hg as (t & Hg & Ht).
  destruct (@session_fulfilled w evs 200 _ _ Hr Hf Hne Hno eq_refl Hg)
    as (H1 & H2 & H3 & H4).
  unfold js_or in H1. rewrite Ht in H1. cbv zeta. revert H1 H2 H3 H4.
  generalize (session w evs (axios_post (HttpReply 200 (VObject props)))).
  intros w' H1 H2 H3 H4. unfold render. simpl. rewrite H1, H2, H3, H4.
  repeat split; reflexivity.
Qed.

Lemma missing_translation_settles_to_sentinel_witness :
  translationResult
    (app (session (typed "Hello") [] (axios_post (HttpReply 200 (VObject [])))))
  = VString (JsString.lit "No translation available.").
Proof.
  refine (proj1 (@missing_translation_settles_to_sentinel
                   (typed "Hello") [] []
                   (reachable_typed "Hello") eq_refl _ _ (or_introl eq_refl))).
  - vm_compute. discriminate.
  - intros o [].
Defined.

(** The sentinel is only reached when the body can be read: a 200 reply
    whose body is [null] makes line 207 throw, and the [catch] block
    reports the generic failure. *)
Lemma null_body_is_reported_as_failure :
  app (session (typed "Hello") [] (axios_post (HttpReply 200 VNull))) =
    mkApp (JsString.lit "Hello") (JsString.lit "en") (JsString.lit "es")
          (VString []) (VString msg_failed) false.
Proof. reflexivity. Qed.

(** C5, as stated, fails: a failure whose body carries the empty message
    ends with the generic text, not with that message. *)
Lemma empty_message_not_verbatim :
  provider_message (HttpReply 429 (VObject (body_message ""))) = VString [] /\
  errorMessage
    (app (session (typed "Hello") []
                  (axios_post (HttpReply 429 (VObject (body_message ""))))))
  = VString (JsString.lit "Failed to translate text. Please try again.") /\
  errorMessage
    (app (session (typed "Hello") []
                  (axios_post (HttpReply 429 (VObject (body_message ""))))))
  <> provider_message (HttpReply 429 (VObject (body_message ""))).
Proof.
  repeat split; try reflexivity. vm_compute. discriminate.
Qed.

(** C5, amended. A valid submission that fails ends with the message of
    the reply body as the displayed error when that message is truthy (for
    a string: non-empty), and with "Failed to translate text. Please try
    again." otherwise: no reply at all (timeout, connection error), no
    body, a body that is not an object, no [message] field, or a falsy
    one.  In both cases no result is displayed and the flag is off. *)
Theorem failure_settles_to_message
        (w : World) (evs : list event) (r : reply) :
  reachable w ->
  isTranslating (app w) = false ->
  JsString.trim (inputText (app w)) <> [] ->
  (forall o, ~ In (Settle (List.length (sent w)) o) evs) ->
  is_failure r = true ->
  let w' := session w evs (axios_post r) in
  errorMessage (app w') =
    (if truthy (provider_message r) then provider_message r
     else VString msg_failed) /\
  error_box (render (app w')) = Some (errorMessage (app w')) /\
  result_box (render (app w')) = None /\
  translationResult (app w') = VString [] /\
  isTranslating (app w') = false /\
  outstanding w' = [].
Proof.
  intros Hr Hf Hne Hno Hfail.
  destruct (@session_rejected w evs r Hr Hf Hne Hno Hfail) as (H1 & H2 & H3 & H4).
  cbv zeta. revert H1 H2 H3 H4. generalize (session w evs (axios_post r)).
  intros w' H1 H2 H3 H4.
  assert (Ht : truthy (errorMessage (app w')) = true)
    by (rewrite H1; apply js_or_truthy; reflexivity).
  unfold render. simpl. rewrite H2, H3, H4, Ht.
  repeat split; try reflexivity. exact H1.
Qed.

Lemma failure_settles_to_message_witness :
  errorMessage
    (app (session (typed "Hello") []
            (axios_post (HttpReply 429 (VObject (body_message "rate limited"))))))
  = VString (JsString.lit "rate limited") /\
  errorMessage (app (session (typed "Hello") [] (axios_post NoReply)))
  = VString (JsString.lit "Failed to translate text. Please try again.").
Proof.
  split.
  - refine (proj1 (@failure_settles_to_message
                     (typed "Hello") []
                     (HttpReply 429 (VObject (body_message "rate limited")))
                     (reachable_typed "Hello") eq_refl _ _ eq_refl)).
    + vm_compute. discriminate.
    + intros o [].
  - refine (proj1 (@failure_settles_to_message
                     (typed "Hello") [] NoReply
                     (reachable_typed "Hello") eq_refl _ _ eq_refl)).
    + vm_compute. discriminate.
    + intros o [].
Defined.

(** ** Single flight *)

Lemma in_flight_step_sent (id : nat) (w : World) (e : event) :
  in_flight id w -> (forall o, e <> Settle id o) -> sent (step w e) = sent w.
Proof.
  intros (Hf & Ho & _) Hne.
  destruct e as [s|s|s| |j o]; simpl; try reflexivity.
  - rewrite Hf. reflexivity.
  - rewrite (@settle_other j id o w Ho); [reflexivity|].
    intros ->. apply (Hne o). reflexivity.
Qed.

Lemma in_flight_steps_sent (id : nat) (evs : list event) (w : World) :
  in_flight id w -> (forall o, ~ In (Settle id o) evs) ->
  sent (steps w evs) = sent w.
Proof.
  revert w. induction evs as [|e evs IH]; intros w Hw Hno; simpl.
  - reflexivity.
  - assert (He : forall o, e <> Settle id o)
      by (intros o ->; apply (Hno o); left; reflexivity).
    rewrite IH.
    + apply (in_flight_step_sent Hw He).
    + apply (in_flight_step Hw He).
    + intros o Hin. apply (Hno o). right. exact Hin.
Qed.

Lemma reachable_flag_iff (w : World) :
  reachable w -> (isTranslating (app w) = true <-> outstanding w <> []).
Proof.
  intros Hr. pose proof (reachable_invariant Hr) as Hinv.
  destruct (isTranslating (app w)) eqn:Hf.
  - destruct (inv_busy Hinv Hf) as (id & _ & Ho & _). rewrite Ho.
    split; [discriminate|reflexivity].
  - rewrite (inv_idle Hinv Hf). split; [discriminate|contradiction].
Qed.

Lemma reachable_single_flight (w : World) :
  reachable w -> List.length (outstanding w) <= 1.
Proof.
  intros Hr. pose proof (reachable_invariant Hr) as Hinv.
  destruct (isTranslating (app w)) eqn:Hf.
  - destruct (inv_busy Hinv Hf) as (id & _ & Ho & _). rewrite Ho. simpl. lia.
  - rewrite (inv_idle Hinv Hf). simpl. lia.
Qed.

Lemma reachable_settle (w : World) (id : nat) (o : outcome) :
  reachable w -> is_outstanding id w = true ->
  in_flight id w /\
  step w (Settle id o) =
    run (fst (handleTranslationSubmit_resume o))
        {| app := app w; sent := sent w; outstanding := [] |}.
Proof.
  intros Hr Hid. pose proof (reachable_invariant Hr) as Hinv.
  destruct (isTranslating (app w)) eqn:Hf.
  - destruct (inv_busy Hinv Hf) as (j & Hj).
    assert (id = j) as ->.
    { destruct Hj as (_ & Ho & _). unfold is_outstanding in Hid.
      rewrite Ho in Hid. simpl in Hid. rewrite orb_false_r in Hid.
      apply Nat.eqb_eq, Hid. }
    split; [exact Hj|]. simpl. apply settle_single, Hj.
  - rewrite (@is_outstanding_none id w (inv_idle Hinv Hf)) in Hid.
    discriminate.
Qed.

(** C9. While the in-progress flag is on, the button is disabled and a
    click does nothing; the one request in flight stays outstanding and no
    other request is sent by any sequence of edits and clicks, until that
    request settles. *)
Theorem submit_disabled_while_in_flight (w : World) :
  reachable w ->
  isTranslating (app w) = true ->
  button_disabled (render (app w)) = true /\
  step w Click = w /\
  exists id,
    outstanding w = [id] /\
    forall evs, (forall o, ~ In (Settle id o) evs) ->
                outstanding (steps w evs) = [id] /\
                sent (steps w evs) = sent w.
Proof.
  intros Hr Hf. split; [exact Hf|]. split; [simpl; rewrite Hf; reflexivity|].
  destruct (inv_busy (reachable_invariant Hr) Hf) as (id & Hin).
  exists id. split; [apply Hin|]. intros evs Hno. split.
  - apply (in_flight_steps evs Hin Hno).
  - apply (in_flight_steps_sent evs Hin Hno).
Qed.

Lemma reachable_hello_in_flight : reachable hello_in_flight.
Proof. apply reachable_step, reachable_typed. Qed.

Lemma submit_disabled_while_in_flight_witness :
  isTranslating (app hello_in_flight) = true /\
  step hello_in_flight Click = hello_in_flight.
Proof.
  split; [reflexivity|].
  exact (proj1 (proj2 (@submit_disabled_while_in_flight
                         hello_in_flight reachable_hello_in_flight eq_refl))).
Defined.

(** C8. In every state of the page the in-progress flag is on exactly when
    a request is outstanding; a valid call turns it on before it posts the
    request; and the settlement of the outstanding request, whatever its
    outcome, turns it off and leaves nothing outstanding. *)
Theorem in_progress_flag_tracks_request (w : World) :
  reachable w ->
  (isTranslating (app w) = true <-> outstanding w <> []) /\
  (JsString.trim (inputText (app w)) <> [] ->
   handleTranslationSubmit (app w) =
     [SetErrorMessage (VString []);
      SetTranslationResult (VString []);
      SetIsTranslating true;
      Post (mkRequest (inputText (app w)) (originalLanguage (app w))
                      (destinationLanguage (app w)))]) /\
  (forall id o,
      is_outstanding id w = true ->
      isTranslating (app (step w (Settle id o))) = false /\
      outstanding (step w (Settle id o)) = []).
Proof.
  intros Hr. split; [apply reachable_flag_iff, Hr|].
  split; [apply handler_valid|].
  intros id o Hid. destruct (@reachable_settle w id o Hr Hid) as (_ & ->).
  split; [apply run_resume_flag|].
  rewrite (proj2 (run_resume_network o _)). reflexivity.
Qed.

Lemma in_progress_flag_tracks_request_witness :
  (isTranslating (app hello_in_flight) = true <->
   outstanding hello_in_flight <> []) /\
  isTranslating
    (app (step hello_in_flight (Settle 0 (axios_post NoReply)))) = false.
Proof.
  destruct (@in_progress_flag_tracks_request
              hello_in_flight reachable_hello_in_flight) as (H1 & _ & H3).
  split; [exact H1|]. apply H3. reflexivity.
Defined.

(** ** What is displayed *)

Lemma error_box_some (s : AppState) (e : value) :
  error_box (render s) = Some e ->
  truthy (errorMessage s) = true /\ e = errorMessage s.
Proof.
  simpl. destruct (truthy (errorMessage s)); [|discriminate].
  intros H. injection H as <-. split; reflexivity.
Qed.

Lemma result_box_some (s : AppState) (r : value) :
  result_box (render s) = Some r ->
  truthy (translationResult s) = true /\ r = translationResult s.
Proof.
  simpl. destruct (truthy (translationResult s)); [|discriminate].
  intros H. injection H as <-. split; reflexivity.
Qed.

(** C7, as stated, fails: after "Hello" has been translated to "Hola", a
    click with the text erased shows the validation error and leaves
    "Hola" on display. *)
Lemma error_and_result_both_shown :
  reachable hola_then_blank /\
  error_box (render (app hola_then_blank)) =
    Some (VString (JsString.lit "Please enter some text.")) /\
  result_box (render (app hola_then_blank)) =
    Some (VString (JsString.lit "Hola")).
Proof.
  split; [apply reachable_steps, reachable_start|].
  split; reflexivity.
Qed.

(** C7, amended. In every state of the page the error and the result are
    displayed together only when the error is the validation message
    "Please enter some text." (a rejected submission leaves the previous
    result on display); while a request is in flight neither is displayed;
    right after a settlement at most one of them is displayed; and a
    submission that passes validation clears the error and the result
    before it posts its request. *)
Theorem display_exclusive_up_to_validation (w : World) :
  reachable w ->
  (forall e r,
      error_box (render (app w)) = Some e ->
      result_box (render (app w)) = Some r ->
      e = VString msg_enter_text) /\
  (isTranslating (app w) = true ->
   error_box (render (app w)) = None /\ result_box (render (app w)) = None) /\
  (forall id o,
      is_outstanding id w = true ->
      error_box (render (app (step w (Settle id o)))) = None \/
      result_box (render (app (step w (Settle id o)))) = None) /\
  (JsString.trim (inputText (app w)) <> [] ->
   handleTranslationSubmit (app w) =
     [SetErrorMessage (VString []);
      SetTranslationResult (VString []);
      SetIsTranslating true;
      Post (mkRequest (inputText (app w)) (originalLanguage (app w))
                      (destinationLanguage (app w)))]).
Proof.
  intros Hr. pose proof (reachable_invariant Hr) as Hinv.
  split; [|split; [|split]].
  - intros e r He Hres.
    apply error_box_some in He. apply result_box_some in Hres.
    destruct He as (He & ->). destruct Hres as (Hres & _).
    apply (inv_both Hinv He Hres).
  - intros Hf. destruct (inv_busy Hinv Hf) as (id & _ & _ & He & Hres).
    simpl. rewrite He, Hres. split; reflexivity.
  - intros id o Hid.
    destruct (@reachable_settle w id o Hr Hid) as ((_ & _ & He & Hres) & ->).
    destruct (resume_has_shape o); simpl; rewrite ?He, ?Hres; auto.
  - apply handler_valid.
Qed.

Lemma display_exclusive_up_to_validation_witness :
  error_box (render (app hello_in_flight)) = None /\
  result_box (render (app hello_in_flight)) = None.
Proof.
  exact (proj1 (proj2 (@display_exclusive_up_to_validation
                         hello_in_flight reachable_hello_in_flight))
               eq_refl).
Defined.

(** ** Last submission wins *)




(** * Further properties of the component *)

(** ** The shape of a trimmed string *)

Section TrimShape.

Import JsString.

Lemma trimStart_split (s : JsString.t) :
  exists pre, s = pre ++ trimStart s /\ forallb is_whitespace pre = true.
Proof.
  induction s as [|c s (pre & Hs & Hp)]; simpl.
  - exists []. split; reflexivity.
  - destruct (is_whitespace c) eqn:E.
    + exists (c :: pre). simpl. rewrite E, Hp. split; [|reflexivity].
      f_equal. exact Hs.
    + exists []. split; reflexivity.
Qed.

Lemma trimStart_head (s : JsString.t) (c : code_unit) :
  hd_error (trimStart s) = Some c -> is_whitespace c = false.
Proof.
  induction s as [|d s IH]; simpl; [discriminate|].
  destruct (is_whitespace d) eqn:E; [exact IH|].
  simpl. intros H. injection H as <-. exact E.
Qed.

Lemma trimEnd_split (s : JsString.t) :
  exists post, s = trimEnd s ++ post /\ forallb is_whitespace post = true.
Proof.
  destruct (trimStart_split (rev s)) as (pre & Hs & Hp).
  exists (rev pre). split.
  - apply (f_equal (@rev _)) in Hs. rewrite rev_involutive, rev_app_distr in Hs.
    exact Hs.
  - rewrite forallb_rev. exact Hp.
Qed.

Lemma hd_error_app (A : Type) (l l' : list A) (a : A) :
  hd_error l = Some a -> hd_error (l ++ l') = Some a.
Proof. destruct l; simpl; [discriminate|auto]. Qed.

(** X2. [trim] removes a run of white space at each end and nothing else:
    the string is a white-space prefix, the trimmed string, and a
    white-space suffix, and the trimmed string neither starts nor ends with
    white space. *)
Theorem trim_shape (s : JsString.t) :
  (exists pre post,
      s = pre ++ trim s ++ post /\
      forallb is_whitespace pre = true /\
      forallb is_whitespace post = true) /\
  (forall c, hd_error (trim s) = Some c -> is_whitespace c = false) /\
  (forall c, hd_error (rev (trim s)) = Some c -> is_whitespace c = false).
Proof.
  destruct (trimStart_split s) as (pre & Hs & Hp).
  destruct (trimEnd_split (trimStart s)) as (post & Hu & Hq).
  split; [|split].
  - exists pre, post. unfold trim. rewrite <- Hu. auto.
  - intros c Hc. apply (trimStart_head s).
    rewrite Hu. apply hd_error_app. exact Hc.
  - intros c. unfold trim, trimEnd. rewrite rev_involutive.
    apply trimStart_head.
Qed.

End TrimShape.

Lemma trim_shape_witness :
  JsString.trim (JsString.lit "  Hello ") = JsString.lit "Hello" /\
  JsString.is_whitespace 72%N = false.
Proof.
  split; [reflexivity|].
  exact (proj1 (proj2 (trim_shape (JsString.lit "  Hello "))) 72%N eq_refl).
Defined.

(** ** What passes validation *)

Lemma existsb_negb (A : Type) (p : A -> bool) (l : list A) :
  existsb (fun a => negb (p a)) l = negb (forallb p l).
Proof.
  induction l as [|a l IH]; simpl; [reflexivity|].
  rewrite IH, negb_andb. reflexivity.
Qed.

(** X1. The guard of line 190 lets a submission through exactly when the
    text holds a code unit that is not white space, whatever the language
    codes and the rest of the state are: then the handler clears the
    display, raises the flag and posts; otherwise (empty text, or only
    spaces, tabs, line breaks, no-break or ideographic spaces, ...) it only
    sets the validation message. *)
Theorem validation_passes_iff_visible_text (s : AppState) :
  (existsb (fun c => negb (JsString.is_whitespace c)) (inputText s) = true ->
   handleTranslationSubmit s =
     [SetErrorMessage (VString []);
      SetTranslationResult (VString []);
      SetIsTranslating true;
      Post (mkRequest (inputText s) (originalLanguage s) (destinationLanguage s))])
  /\
  (existsb (fun c => negb (JsString.is_whitespace c)) (inputText s) = false ->
   handleTranslationSubmit s = [SetErrorMessage (VString msg_enter_text)]).
Proof.
  rewrite existsb_negb. split; intros H.
  - apply handler_valid. intros Ht. apply trim_nil_iff in Ht.
    rewrite Ht in H. discriminate.
  - apply handler_blank, trim_nil_iff.
    apply negb_false_iff, H.
Qed.

Lemma validation_passes_iff_visible_text_witness :
  handleTranslationSubmit
    (mkApp [160; 12288; 9]%N [] [] (VString []) (VString []) false)
  = [SetErrorMessage (VString msg_enter_text)].
Proof.
  exact (proj2 (validation_passes_iff_visible_text
                  (mkApp [160; 12288; 9]%N [] [] (VString []) (VString []) false))
               eq_refl).
Defined.

(** ** Edits *)

(** X3. Typing in the text area or in the language fields (lines 224, 234,
    241) never touches what is displayed or the network: after any run of
    edits the error message, the result, the in-progress flag, the requests
    sent and the requests outstanding are as before.  In particular a
    displayed error or result stays until the next click. *)
Theorem edits_preserve_display (evs : list event) (w : World) :
  forallb is_edit evs = true ->
  errorMessage (app (steps w evs)) = errorMessage (app w) /\
  translationResult (app (steps w evs)) = translationResult (app w) /\
  isTranslating (app (steps w evs)) = isTranslating (app w) /\
  sent (steps w evs) = sent w /\
  outstanding (steps w evs) = outstanding w.
Proof.
  revert w. induction evs as [|e evs IH]; intros w H; simpl.
  - repeat split; reflexivity.
  - simpl in H. apply andb_true_iff in H. destruct H as (He & Hevs).
    destruct (IH (step w e) Hevs) as (H1 & H2 & H3 & H4 & H5).
    rewrite H1, H2, H3, H4, H5.
    destruct e; try discriminate; repeat split; reflexivity.
Qed.

Lemma edits_preserve_display_witness :
  errorMessage
    (app (steps hola_then_blank
                [EditText (JsString.lit "Bye"); EditDestination (JsString.lit "fr")]))
  = VString (JsString.lit "Please enter some text.").
Proof.
  exact (proj1 (@edits_preserve_display
                  [EditText (JsString.lit "Bye"); EditDestination (JsString.lit "fr")]
                  hola_then_blank eq_refl)).
Defined.

(** ** Requests and clicks *)

Lemma settle_sent (id : nat) (o : outcome) (w : World) :
  sent (settle id o w) = sent w.
Proof.
  unfold settle. destruct (is_outstanding id w); [|reflexivity].
  rewrite (proj1 (run_resume_network o _)). reflexivity.
Qed.

Lemma step_sent_bound (w : World) (e : event) :
  List.length (sent (step w e)) <=
    List.length (sent w) + (if is_click e then 1 else 0).
Proof.
  destruct e as [s|s|s| |id o]; simpl; try lia.
  - destruct (isTranslating (app w)); [lia|].
    destruct (JsString.trim (inputText (app w))) as [|c t] eqn:Ht.
    + rewrite (submit_blank _ Ht). simpl. lia.
    + rewrite submit_valid by (rewrite Ht; discriminate).
      simpl. rewrite length_app. simpl. lia.
  - rewrite settle_sent. lia.
Qed.

(** X4. The page never sends a request on its own: along any run of
    events, from any state, the number of requests sent grows by at most
    the number of clicks in the run.  Edits and settlements send nothing,
    so a failed request is never retried automatically. *)
Theorem requests_bounded_by_clicks (evs : list event) (w : World) :
  List.length (sent (steps w evs)) <=
    List.length (sent w) + List.length (filter is_click evs).
Proof.
  revert w. induction evs as [|e evs IH]; intros w; simpl.
  - lia.
  - specialize (IH (step w e)). pose proof (step_sent_bound w e) as Hs.
    destruct (is_click e); simpl; lia.
Qed.

(** ** What the two state variables can hold *)

(** X5. In every state of the page the error message and the result are
    each either the empty string or a truthy value: no other falsy value
    (0, false, null, undefined) is ever stored, so the conditionals of
    lines 259-260 either render their box or render nothing. *)
Theorem display_values_empty_or_truthy (w : World) :
  reachable w ->
  (errorMessage (app w) = VString [] \/ truthy (errorMessage (app w)) = true) /\
  (translationResult (app w) = VString [] \/
   truthy (translationResult (app w)) = true).
Proof.
  induction 1 as [|w e Hr IH]; [split; left; reflexivity|].
  destruct e as [s|s|s| |id o]; simpl; try exact IH.
  - destruct (isTranslating (app w)); [exact IH|].
    destruct (JsString.trim (inputText (app w))) as [|c t] eqn:Ht.
    + rewrite (submit_blank _ Ht). simpl. split; [right; reflexivity|apply IH].
    + rewrite submit_valid by (rewrite Ht; discriminate).
      simpl. split; left; reflexivity.
  - unfold settle. destruct (is_outstanding id w); [|exact IH].
    destruct (resume_has_shape o); simpl; tauto.
Qed.

Lemma display_values_empty_or_truthy_witness :
  (errorMessage (app hola_then_blank) = VString [] \/
   truthy (errorMessage (app hola_then_blank)) = true) /\
  (translationResult (app hola_then_blank) = VString [] \/
   truthy (translationResult (app hola_then_blank)) = true).
Proof.
  apply display_values_empty_or_truthy.
  apply reachable_steps, reachable_start.
Defined.

(** ** Exceptions *)

Lemma get_normal (v : value) (f : field) :
  nullish v = false -> exists x, get v f = Normal x.
Proof.
  destruct v as [| |b|n|s|props]; simpl; try discriminate;
    intros _; try (eexists; reflexivity).
  destruct (lookup (field_name f) props); eexists; reflexivity.
Qed.

Lemma optional_chain_normal (response : value) :
  exists m,
    get_opt response f_data
            (fun data => get_opt data f_message (fun m => Normal m)) = Normal m.
Proof.
  unfold get_opt. destruct (nullish response) eqn:Hn; [eexists; reflexivity|].
  destruct (@get_normal response f_data Hn) as (data & ->). simpl.
  destruct (nullish data) eqn:Hd; [eexists; reflexivity|].
  destruct (@get_normal data f_message Hd) as (m & ->). simpl.
  eexists; reflexivity.
Qed.

Lemma catch_block_normal (err : value) :
  nullish err = false -> exists effs, catch_block err = Normal effs.
Proof.
  intros Hn. unfold catch_block.
  destruct (@get_normal err f_response Hn) as (response & ->). simpl.
  destruct (optional_chain_normal response) as (m & ->). simpl.
  eexists; reflexivity.
Qed.

Lemma get_throw (v : value) (f : field) (exn : value) :
  get v f = Throw exn -> exn = TypeError.
Proof.
  destruct v as [| |b|n|s|props]; simpl;
    try discriminate; try (intros H; injection H as <-; reflexivity).
  destruct (lookup (field_name f) props); discriminate.
Qed.

Lemma try_block_throw (o : outcome) (exn : value) :
  try_block o = Throw exn -> o = Rejected exn \/ exn = TypeError.
Proof.
  destruct o as [response|err]; simpl.
  - unfold bind.
    destruct (get response f_data) as [data|e] eqn:Ed.
    + destruct (get data f_translated_text) as [t|e] eqn:Et; [discriminate|].
      intros H. injection H as <-. right. apply (get_throw _ _ Et).
    + intros H. injection H as <-. right. apply (get_throw _ _ Ed).
  - intros H. injection H as <-. left. reflexivity.
Qed.

(** X6. The handler's own promise is rejected only when the awaited
    promise was rejected with [null] or [undefined]; then the exception is
    the [TypeError] of reading [err.response] in the [catch] block, and the
    [finally] block still runs.  It follows that it is never rejected when
    the outcome comes from axios, whatever the reply. *)
Theorem handler_rejects_only_on_nullish_error :
  (forall o exn,
      snd (handleTranslationSubmit_resume o) = Some exn ->
      (o = Rejected VUndefined \/ o = Rejected VNull) /\
      exn = TypeError /\
      fst (handleTranslationSubmit_resume o) = [SetIsTranslating false]) /\
  (forall r, snd (handleTranslationSubmit_resume (axios_post r)) = None).
Proof.
  assert (H1 : forall o exn,
             snd (handleTranslationSubmit_resume o) = Some exn ->
             (o = Rejected VUndefined \/ o = Rejected VNull) /\
             exn = TypeError /\
             fst (handleTranslationSubmit_resume o) = [SetIsTranslating false]).
  { intros o exn. unfold handleTranslationSubmit_resume.
    destruct (try_block o) as [effs|err] eqn:Et; [discriminate|].
    destruct (nullish err) eqn:Hn.
    - destruct (@try_block_throw o err Et) as [-> | ->]; [|discriminate].
      destruct err; try discriminate; simpl; intros H; injection H as <-; auto.
    - destruct (@catch_block_normal err Hn) as (effs & ->). discriminate. }
  split; [exact H1|].
  intros r. destruct (snd (handleTranslationSubmit_resume (axios_post r)))
    as [exn|] eqn:E; [|reflexivity].
  destruct (H1 _ _ E) as ([H | H] & _);
    destruct r as [status data|]; simpl in H;
    try destruct (validateStatus status); discriminate.
Qed.

Lemma handler_rejects_only_on_nullish_error_witness :
  snd (handleTranslationSubmit_resume (Rejected VNull)) = Some TypeError /\
  fst (handleTranslationSubmit_resume (Rejected VNull)) = [SetIsTranslating false].
Proof.
  split; [reflexivity|].
  exact (proj2 (proj2 (proj1 handler_rejects_only_on_nullish_error
                             (Rejected VNull) TypeError eq_refl))).
Defined.

(** ** Success replies in general *)

Lemma resume_null_body (status : Z) (data : value) :
  validateStatus status = true ->
  nullish data = true ->
  handleTranslationSubmit_resume (axios_post (HttpReply status data)) =
    ([SetErrorMessage (VString msg_failed); SetIsTranslating false], None).
Proof.
  intros Hs Hd. unfold handleTranslationSubmit_resume, axios_post.
  rewrite Hs. destruct data; try discriminate; reflexivity.
Qed.

(** X7. A reply with a success status whose body is JSON [null] is
    reported as a failure: reading [translated_text] on line 207 throws,
    the [catch] block finds no [response] on the exception and shows
    "Failed to translate text. Please try again."; no result is shown and
    the flag is off. *)
Theorem null_success_body_settles_to_failure
        (w : World) (evs : list event) (status : Z) :
  reachable w ->
  isTranslating (app w) = false ->
  JsString.trim (inputText (app w)) <> [] ->
  (forall o, ~ In (Settle (List.length (sent w)) o) evs) ->
  validateStatus status = true ->
  let w' := session w evs (axios_post (HttpReply status VNull)) in
  errorMessage (app w') = VString msg_failed /\
  translationResult (app w') = VString [] /\
  isTranslating (app w') = false /\
  error_box (render (app w')) = Some (VString msg_failed) /\
  result_box (render (app w')) = None.
Proof.
  intros Hr Hf Hne Hno Hs.
  destruct (@session_app w evs (axios_post (HttpReply status VNull))
                         Hr Hf Hne Hno) as (w1 & (_ & _ & _ & Hres) & Heq).
  cbv zeta. rewrite Heq, (@resume_null_body status VNull Hs eq_refl).
  simpl. rewrite Hres. repeat split; reflexivity.
Qed.

Lemma null_success_body_settles_to_failure_witness :
  errorMessage
    (app (session (typed "Hello") [] (axios_post (HttpReply 200 VNull))))
  = VString (JsString.lit "Failed to translate text. Please try again.").
Proof.
  refine (proj1 (@null_success_body_settles_to_failure
                   (typed "Hello") [] 200%Z
                   (reachable_typed "Hello") eq_refl _ _ eq_refl)).
  - vm_compute. discriminate.
  - intros o [].
Defined.

(** X8. A reply with any success status (200 to 299) and a body that is
    not [null] never settles to an error.  The stored result is the value
    of [translated_text] when that value is truthy and the sentinel
    otherwise, also when the body is not an object at all (an empty body
    arrives as the empty string); the error stays empty and the flag goes
    off.  When the stored result is a string, it is the text handed to
    <TranslatedOutput>, no error box is rendered and the prop types hold. *)
Theorem success_status_settles_to_result
        (w : World) (evs : list event) (status : Z) (data : value) :
  reachable w ->
  isTranslating (app w) = false ->
  JsString.trim (inputText (app w)) <> [] ->
  (forall o, ~ In (Settle (List.length (sent w)) o) evs) ->
  validateStatus status = true ->
  nullish data = false ->
  let w' := session w evs (axios_post (HttpReply status data)) in
  exists t,
    get data f_translated_text = Normal t /\
    translationResult (app w') =
      (if truthy t then t else VString msg_no_translation) /\
    errorMessage (app w') = VString [] /\
    isTranslating (app w') = false /\
    (string_isRequired (translationResult (app w')) = true ->
     result_box (render (app w')) = Some (translationResult (app w')) /\
     error_box (render (app w')) = None /\
     propTypes_ok (render (app w')) = true).
Proof.
  intros Hr Hf Hne Hno Hs Hd.
  destruct (@get_normal data f_translated_text Hd) as (t & Ht).
  exists t. split; [exact Ht|].
  destruct (@session_fulfilled w evs status data t Hr Hf Hne Hno Hs Ht)
    as (H1 & H2 & H3 & _).
  cbv zeta. revert H1 H2 H3.
  generalize (session w evs (axios_post (HttpReply status data))).
  intros w' H1 H2 H3.
  assert (Htr : truthy (translationResult (app w')) = true)
    by (rewrite H1; apply js_or_truthy; reflexivity).
  split; [exact H1|]. split; [exact H2|]. split; [exact H3|].
  intros Hstr. unfold propTypes_ok, render. simpl.
  rewrite Htr, H2, Hstr. repeat split; reflexivity.
Qed.

Lemma success_status_settles_to_result_witness :
  result_box
    (render
       (app (session (typed "Hello") []
                     (axios_post (HttpReply 204 (VString []))))))
  = Some (VString (JsString.lit "No translation available.")).
Proof.
  destruct (@success_status_settles_to_result
              (typed "Hello") [] 204%Z (VString [])
              (reachable_typed "Hello") eq_refl)
    as (t & Ht & Hres & _ & _ & Hdisp).
  - vm_compute. discriminate.
  - intros o [].
  - reflexivity.
  - reflexivity.
  - injection Ht as <-.
    destruct Hdisp as (Hbox & _); [rewrite Hres; reflexivity|].
    rewrite Hres in Hbox. exact Hbox.
Defined.

(** ** Sessions *)

Lemma reachable_session (w : World) (evs : list event) (o : outcome) :
  reachable w -> reachable (session w evs o).
Proof.
  intros Hr. unfold session.
  apply reachable_step, reachable_steps, reachable_step, Hr.
Qed.

(** The network and the input after a session. *)
Lemma session_network (w : World) (evs : list event) (o : outcome) :
  reachable w ->
  isTranslating (app w) = false ->
  JsString.trim (inputText (app w)) <> [] ->
  (forall o', ~ In (Settle (List.length (sent w)) o') evs) ->
  sent (session w evs o) =
    sent w ++ [mkRequest (inputText (app w)) (originalLanguage (app w))
                         (destinationLanguage (app w))] /\
  outstanding (session w evs o) = [] /\
  isTranslating (app (session w evs o)) = false /\
  inputText (app (session w evs o)) = inputText (app (steps (step w Click) evs)).
Proof.
  intros Hr Hf Hne Hno.
  pose proof (click_in_flight evs Hr Hf Hne Hno) as Hin.
  assert (Hs : sent (steps (step w Click) evs) = sent (step w Click)).
  { apply in_flight_steps_sent with (id := List.length (sent w)); [|exact Hno].
    simpl. rewrite Hf, (submit_valid _ Hne).
    rewrite (inv_idle (reachable_invariant Hr) Hf).
    unfold in_flight. simpl. tauto. }
  assert (Hc : sent (step w Click) =
               sent w ++ [mkRequest (inputText (app w)) (originalLanguage (app w))
                                    (destinationLanguage (app w))]).
  { simpl. rewrite Hf, (submit_valid _ Hne). reflexivity. }
  rewrite Hc in Hs. clear Hc. unfold session.
  revert Hin Hs. generalize (steps (step w Click) evs). intros w1 Hin Hs.
  change (step w1 (Settle (List.length (sent w)) o))
    with (settle (List.length (sent w)) o w1).
  rewrite (@settle_single _ o _ (proj1 (proj2 Hin))).
  rewrite (proj1 (run_resume_network o _)), (proj2 (run_resume_network o _)).
  cbn [sent outstanding].
  split; [exact Hs|]. split; [reflexivity|].
  split; [apply run_resume_flag|].
  destruct (resume_has_shape o); reflexivity.
Qed.

(** X9. A submission sends exactly one request, with the text and the
    language codes the inputs held at the click: whatever is typed or
    clicked while it is in flight and however it settles, the requests sent
    at the end are those sent before plus that one, nothing is outstanding
    and the flag is off, so that the page is ready for the next
    submission. *)
Theorem session_sends_one_request
        (w : World) (evs : list event) (o : outcome) :
  reachable w ->
  isTranslating (app w) = false ->
  JsString.trim (inputText (app w)) <> [] ->
  (forall o', ~ In (Settle (List.length (sent w)) o') evs) ->
  let w' := session w evs o in
  sent w' = sent w ++ [mkRequest (inputText (app w)) (originalLanguage (app w))
                                 (destinationLanguage (app w))] /\
  outstanding w' = [] /\
  isTranslating (app w') = false /\
  button_disabled (render (app w')) = false /\
  inputText (app w') = inputText (app (steps (step w Click) evs)).
Proof.
  intros Hr Hf Hne Hno.
  destruct (@session_network w evs o Hr Hf Hne Hno) as (H1 & H2 & H3 & H4).
  cbv zeta. repeat split; assumption.
Qed.

Lemma session_sends_one_request_witness :
  sent (session (typed "Hello")
                [EditText (JsString.lit "Bye"); Click]
                (axios_post NoReply))
  = [mkRequest (JsString.lit "Hello") (JsString.lit "en") (JsString.lit "es")].
Proof.
  refine (proj1 (@session_sends_one_request
                   (typed "Hello") [EditText (JsString.lit "Bye"); Click]
                   (axios_post NoReply) (reachable_typed "Hello") eq_refl _ _)).
  - vm_compute. discriminate.
  - intros o [H|[H|[]]]; discriminate.
Defined.

(** X10. A settled outcome is not sticky.  After a first submission has
    settled in any way at all (an error, a result, or an exception in the
    handler), a second submission answered with status 200 and a non-empty
    [translated_text] X ends with X displayed and no error, and exactly two
    requests have been sent in all. *)
Theorem next_submission_replaces_outcome
        (w : World) (evs1 evs2 : list event) (o1 : outcome)
        (props : list (jsstring * value)) (X : jsstring) :
  reachable w ->
  isTranslating (app w) = false ->
  JsString.trim (inputText (app w)) <> [] ->
  (forall o, ~ In (Settle (List.length (sent w)) o) evs1) ->
  let w1 := session w evs1 o1 in
  JsString.trim (inputText (app w1)) <> [] ->
  (forall o, ~ In (Settle (List.length (sent w1)) o) evs2) ->
  lookup (field_name f_translated_text) props = Some (VString X) ->
  X <> [] ->
  let w2 := session w1 evs2 (axios_post (HttpReply 200 (VObject props))) in
  translationResult (app w2) = VString X /\
  errorMessage (app w2) = VString [] /\
  isTranslating (app w2) = false /\
  List.length (sent w2) = List.length (sent w) + 2.
Proof.
  intros Hr Hf Hne Hno w1 Hne1 Hno1 Hl HX w2.
  destruct (@session_network w evs1 o1 Hr Hf Hne Hno)
    as (Hs1 & _ & Hf1 & _).
  fold w1 in Hs1, Hf1.
  assert (Hr1 : reachable w1) by (apply reachable_session, Hr).
  assert (Hg : get (VObject props) f_translated_text = Normal (VString X))
    by (rewrite get_props, Hl; reflexivity).
  destruct (@session_fulfilled w1 evs2 200 _ _ Hr1 Hf1 Hne1 Hno1 eq_refl Hg)
    as (H1 & H2 & H3 & _).
  destruct (@session_network
              w1 evs2 (axios_post (HttpReply 200 (VObject props)))
              Hr1 Hf1 Hne1 Hno1) as (Hs2 & _).
  fold w2 in H1, H2, H3, Hs2.
  split; [|split; [exact H2|split; [exact H3|]]].
  - rewrite H1. destruct X; [contradiction|reflexivity].
  - rewrite Hs2, Hs1, !length_app. simpl. lia.
Qed.

Lemma next_submission_replaces_outcome_witness :
  errorMessage (app (session (typed "Hello") [] (axios_post NoReply)))
  = VString msg_failed /\
  errorMessage
    (app (session (session (typed "Hello") [] (axios_post NoReply)) []
                  (axios_post (HttpReply 200 (VObject (body_translated "Hola"))))))
  = VString [].
Proof.
  split; [reflexivity|].
  refine (proj1 (proj2 (@next_submission_replaces_outcome
                          (typed "Hello") [] [] (axios_post NoReply)
                          (body_translated "Hola") (JsString.lit "Hola")
                          (reachable_typed "Hello") eq_refl _ _ _ _ eq_refl _))).
  - vm_compute. discriminate.
  - intros o [].
  - vm_compute. discriminate.
  - intros o [].
  - vm_compute. discriminate.
Defined.

(** X11. In every state of the page an outstanding request is the one
    sent last: the only settlement the page can apply is that of its most
    recent request, so through the page a response never arrives for a
    request that a later one has replaced. *)
Theorem outstanding_request_is_latest (w : World) (id : nat) :
  reachable w ->
  In id (outstanding w) ->
  S id = List.length (sent w).
Proof.
  intros Hr. revert id. induction Hr as [|w e Hr IH]; [intros id []|].
  destruct e as [s|s|s| |j o]; simpl; try exact IH.
  - destruct (isTranslating (app w)) eqn:Hf; [exact IH|].
    destruct (JsString.trim (inputText (app w))) as [|c t] eqn:Ht.
    + rewrite (submit_blank _ Ht). exact IH.
    + rewrite submit_valid by (rewrite Ht; discriminate). simpl.
      rewrite (inv_idle (reachable_invariant Hr) Hf), length_app. simpl.
      intros id [<-|[]]. lia.
  - intros id. destruct (is_outstanding j w) eqn:Hj.
    + destruct (@reachable_settle w j o Hr Hj) as (_ & Heq).
      simpl in Heq. rewrite Heq.
      rewrite (proj2 (run_resume_network o _)). intros [].
    + unfold settle. rewrite Hj. apply IH.
Qed.

Lemma outstanding_request_is_latest_witness :
  In 0 (outstanding hello_in_flight) /\
  1 = List.length (sent hello_in_flight).
Proof.
  split; [left; reflexivity|].
  exact (@outstanding_request_is_latest
           hello_in_flight 0 reachable_hello_in_flight (or_introl eq_refl)).
Defined.

(** ** Prop types *)

Lemma string_or_absent_js_or (o : option value) (d : jsstring) :
  string_or_absent o = true ->
  string_isRequired
    (js_or (match o with Some x => x | None => VUndefined end) (VString d)) = true.
Proof.
  destruct o as [[| |b|n|s|props]|]; simpl; try discriminate; intros _;
    try reflexivity.
  unfold js_or. destruct (truthy (VString s)); reflexivity.
Qed.

(** What the second segment does with a reply that carries strings. *)
Lemma resume_string_reply (r : reply) :
  string_reply r = true ->
  exists v,
    string_isRequired v = true /\
    (fst (handleTranslationSubmit_resume (axios_post r)) =
       [SetTranslationResult v; SetIsTranslating false] \/
     fst (handleTranslationSubmit_resume (axios_post r)) =
       [SetErrorMessage v; SetIsTranslating false]).
Proof.
  intros Hs. destruct (is_failure r) eqn:Hfail.
  - rewrite (@resume_rejected r Hfail). eexists. split; [|right; reflexivity].
    destruct r as [status [| |b|n|s|props]|]; try reflexivity.
    simpl in Hs. apply andb_true_iff in Hs.
    apply (string_or_absent_js_or _ _ (proj2 Hs)).
  - destruct r as [status data|]; [|discriminate].
    simpl in Hfail. apply negb_false_iff in Hfail.
    destruct (nullish data) eqn:Hd.
    + rewrite (@resume_null_body status data Hfail Hd).
      eexists. split; [|right; reflexivity]. reflexivity.
    + destruct (@get_normal data f_translated_text Hd) as (t & Ht).
      rewrite (@resume_fulfilled status data t Hfail Ht).
      eexists. split; [|left; reflexivity].
      destruct data as [| |b|n|s|props]; try discriminate;
        try (injection Ht as <-; reflexivity).
      rewrite get_props in Ht. injection Ht as <-.
      simpl in Hs. apply andb_true_iff in Hs.
      apply (string_or_absent_js_or _ _ (proj1 Hs)).
Qed.

Lemma step_strings (w : World) (e : event) :
  string_event e ->
  string_isRequired (errorMessage (app w)) = true /\
  string_isRequired (translationResult (app w)) = true ->
  string_isRequired (errorMessage (app (step w e))) = true /\
  string_isRequired (translationResult (app (step w e))) = true.
Proof.
  intros He Hw. destruct e as [s|s|s| |id o]; simpl; try exact Hw.
  - destruct (isTranslating (app w)); [exact Hw|].
    destruct (JsString.trim (inputText (app w))) as [|c t] eqn:Ht.
    + rewrite (submit_blank _ Ht). simpl. split; [reflexivity|apply Hw].
    + rewrite submit_valid by (rewrite Ht; discriminate).
      split; reflexivity.
  - destruct He as (r & -> & Hr). unfold settle.
    destruct (is_outstanding id w); [|exact Hw].
    destruct (resume_string_reply r Hr) as (v & Hv & [-> | ->]); simpl;
      split; try exact Hv; apply Hw.
Qed.

(** X12. When every settlement comes from axios with a reply whose
    [translated_text] and [message] are strings or absent, every value the
    page hands to <ErrorMessage> and <TranslatedOutput> is a string, as
    their prop types (lines 279-285) require, in every state of every run
    from the initial state. *)
Theorem propTypes_hold_for_string_replies (evs : list event) :
  (forall e, In e evs -> string_event e) ->
  propTypes_ok (render (app (steps start evs))) = true.
Proof.
  intros Hevs.
  assert (H : string_isRequired (errorMessage (app (steps start evs))) = true /\
              string_isRequired (translationResult (app (steps start evs))) = true).
  { assert (H0 : string_isRequired (errorMessage (app start)) = true /\
                 string_isRequired (translationResult (app start)) = true)
      by (split; reflexivity).
    revert Hevs H0. generalize start.
    induction evs as [|e evs IH]; intros w Hevs Hw; simpl; [exact Hw|].
    apply IH.
    - intros e' Hin. apply Hevs. right. exact Hin.
    - apply step_strings; [apply Hevs; left; reflexivity|exact Hw]. }
  destruct H as (He & Hr). unfold propTypes_ok, render. simpl.
  destruct (truthy (errorMessage (app (steps start evs))));
    destruct (truthy (translationResult (app (steps start evs))));
    rewrite ?He, ?Hr; reflexivity.
Qed.

Lemma propTypes_hold_for_string_replies_witness :
  propTypes_ok
    (render
       (app (steps start
                   [EditText (JsString.lit "Hello");
                    Click;
                    Settle 0 (axios_post
                                (HttpReply 500 (VObject (body_message "down"))))])))
  = true.
Proof.
  apply propTypes_hold_for_string_replies.
  intros e [<-|[<-|[<-|[]]]]; try exact I.
  exists (HttpReply 500 (VObject (body_message "down"))).
  split; reflexivity.
Defined.

(** X13. Nothing converts what the provider sends to a string.  When a
    success reply carries a truthy [translated_text] that is not a string,
    or a failure reply a truthy [message] that is not a string, that value
    is handed as it is to <TranslatedOutput> or <ErrorMessage>, and the
    prop-type check of lines 279-285 fails. *)
Theorem propTypes_fail_for_other_values
        (w : World) (evs : list event)
        (status : Z) (props : list (jsstring * value)) (v : value) :
  reachable w ->
  isTranslating (app w) = false ->
  JsString.trim (inputText (app w)) <> [] ->
  (forall o, ~ In (Settle (List.length (sent w)) o) evs) ->
  truthy v = true ->
  string_isRequired v = false ->
  let w' := session w evs (axios_post (HttpReply status (VObject props))) in
  (validateStatus status = true ->
   lookup (field_name f_translated_text) props = Some v ->
   result_box (render (app w')) = Some v /\
   propTypes_ok (render (app w')) = false) /\
  (validateStatus status = false ->
   lookup (field_name f_message) props = Some v ->
   error_box (render (app w')) = Some v /\
   propTypes_ok (render (app w')) = false).
Proof.
  intros Hr Hf Hne Hno Hv Hs. cbv zeta. split; intros Hst Hl.
  - assert (Hg : get (VObject props) f_translated_text = Normal v)
      by (rewrite get_props, Hl; reflexivity).
    destruct (@session_fulfilled w evs status _ _ Hr Hf Hne Hno Hst Hg)
      as (H1 & H2 & _).
    unfold js_or in H1. rewrite Hv in H1. revert H1 H2.
    generalize (session w evs (axios_post (HttpReply status (VObject props)))).
    intros w' H1 H2. unfold propTypes_ok, render. simpl.
    rewrite H1, H2, Hv, Hs. split; reflexivity.
  - assert (Hfail : is_failure (HttpReply status (VObject props)) = true)
      by (simpl; rewrite Hst; reflexivity).
    destruct (@session_rejected w evs _ Hr Hf Hne Hno Hfail) as (H1 & H2 & _).
    unfold provider_message in H1. rewrite Hl in H1.
    unfold js_or in H1. rewrite Hv in H1.
    revert H1 H2.
    generalize (session w evs (axios_post (HttpReply status (VObject props)))).
    intros w' H1 H2. unfold propTypes_ok, render. simpl.
    rewrite H1, H2, Hv, Hs. split; reflexivity.
Qed.

Lemma propTypes_fail_for_other_values_witness :
  result_box
    (render
       (app (session (typed "Hello") []
               (axios_post
                  (HttpReply 200
                     (VObject [(JsString.lit "translated_text", VNumber 42)]))))))
  = Some (VNumber 42).
Proof.
  refine (proj1 (proj1 (@propTypes_fail_for_other_values
                          (typed "Hello") [] 200%Z
                          [(JsString.lit "translated_text", VNumber 42)]
                          (VNumber 42)
                          (reachable_typed "Hello") eq_refl _ _ eq_refl eq_refl)
                       eq_refl eq_refl)).
  - vm_compute. discriminate.
  - intros o [].
Defined.
